(** * Video-processor API gateway: guard, proxy handlers and metrics

    A shallow embedding of the gateway's TypeScript sources:
    - [auth/auth.guard.ts]       ([AuthGuard]),
    - [auth/auth.controller.ts]  ([AuthController]),
    - [video/video.controller.ts] ([VideoController]),
    - [infrastructure/metrics/nodejs-prometheus.service.ts]
      ([NodejsPrometheusService]),
    - [infrastructure/interceptors/nodejs-metrics.interceptor.ts]
      ([NodejsMetricsInterceptor]).

    Handlers are written in a state-and-exception monad whose state holds what
    a request can touch: the log of outbound HTTP calls, [request.user], the
    client response and the process-wide metrics registry.  The HTTP client
    ([HttpService]) is the boundary of the model: it is a function from the
    outbound call to either a response or an error, exactly what the unit
    tests of the repository mock. *)

From Stdlib Require Import ZArith Lia Ascii.
From stdpp Require Import base strings list gmap pretty.

Open Scope string_scope.
Open Scope list_scope.
Open Scope Z_scope.

(** ** JavaScript values *)

(** JSON data as the HTTP client hands it over, plus the two host objects the
    handlers can meet: a built-in method and a readable stream.  Strings are
    sequences of bytes, the UTF-8 form of the JavaScript string.  [JNum n] is
    the number a JSON integer literal [n] parses to: the double nearest to
    [n]; numbers with a fractional part are not represented. *)
#[warnings="-register-all"]
Inductive JsVal : Type :=
| JUndefined
| JNull
| JBool (b : bool)
| JNum (n : Z)
| JStr (s : string)
| JArr (items : list JsVal)
| JObj (props : list (string * JsVal))
| JFun (name : string)
| JStream (chunks : list string).

(** [if (v)], [v ? a : b], [!v], [v || d]. *)
Definition truthy (v : JsVal) : bool :=
  match v with
  | JUndefined | JNull => false
  | JBool b => b
  | JNum n => negb (n =? 0)
  | JStr s => negb (String.eqb s "")
  | JArr _ | JObj _ | JFun _ | JStream _ => true
  end.

Fixpoint assoc {A : Type} (k : string) (l : list (string * A)) : option A :=
  match l with
  | [] => None
  | (k', v) :: rest => if String.eqb k k' then Some v else assoc k rest
  end.

(** [v[k]], [None] standing for the TypeError of reading a property of
    [undefined] or [null].  The gateway reads only the keys [user] and [sub];
    of the built-in prototypes only [String.prototype] defines one of them
    (the legacy [sub] method). *)
Definition js_get (v : JsVal) (k : string) : option JsVal :=
  match v with
  | JUndefined | JNull => None
  | JObj props => Some (default JUndefined (assoc k props))
  | JStr _ => Some (if String.eqb k "sub" then JFun "sub" else JUndefined)
  | _ => Some JUndefined
  end.

Definition join (sep : string) (l : list string) : string :=
  match l with
  | [] => ""
  | x :: rest => fold_left (fun acc y => acc +:+ sep +:+ y) rest x
  end.

(** *** Numbers as text

    [Number.prototype.toString] on an integer-valued double: the shortest
    run of digits that reads back as the same double (the closest one, the
    even one on a tie), printed in full up to 21 digits and in exponent form
    beyond. *)

(** The double nearest to the integer [a >= 0] (ties to even), [None] for
    an overflow to [Infinity]. *)
Definition to_double (a : Z) : option Z :=
  let bits := Z.log2 a + 1 in
  if bits <=? 53 then Some a
  else
    let e := bits - 53 in
    let q := Z.shiftr a e in
    let r := a - Z.shiftl q e in
    let half := Z.shiftl 1 (e - 1) in
    let q' :=
      if r <? half then q
      else if half <? r then q + 1
      else if Z.even q then q else q + 1 in
    let v := Z.shiftl q' e in
    if 2 ^ 1024 <=? v then None else Some v.

Definition decimal_length (a : Z) : Z := Z.of_nat (String.length (pretty a)).

(** The value with at most [k] significant digits that reads back as [v],
    if there is one. *)
Definition reads_back (v k : Z) : option Z :=
  if decimal_length v <? k then None
  else
    let p := 10 ^ (decimal_length v - k) in
    let below := (v / p) * p in
    let above := (v / p + 1) * p in
    match bool_decide (to_double below = Some v), bool_decide (to_double above = Some v) with
    | true, true =>
        if v - below <? above - v then Some below
        else if above - v <? v - below then Some above
        else if Z.even (v / p) then Some below else Some above
    | true, false => Some below
    | false, true => Some above
    | false, false => None
    end.

(** The shortest decimal that reads back as the double [v > 0]. *)
Definition shortest_decimal (v : Z) : Z :=
  default v (head (omap (reads_back v) (Z.of_nat <$> seq 1 17))).

Fixpoint strip_zeros (digits : string) : string :=
  match digits with
  | EmptyString => ""
  | String c rest =>
      match strip_zeros rest with
      | EmptyString => if Ascii.eqb c "0" then "" else String c ""
      | kept => String c kept
      end
  end.

Definition Number_toString (n : Z) : string :=
  if n =? 0 then "0"
  else
    let sign := if n <? 0 then "-" else "" in
    match to_double (Z.abs n) with
    | None => sign +:+ "Infinity"
    | Some v =>
        let digits := pretty (shortest_decimal v) in
        let size := Z.of_nat (String.length digits) in
        if size <=? 21 then sign +:+ digits
        else
          match strip_zeros digits with
          | String d EmptyString => sign +:+ String d "e+" +:+ pretty (size - 1)
          | String d more =>
              sign +:+ String d "." +:+ more +:+ "e+" +:+ pretty (size - 1)
          | EmptyString => sign +:+ digits
          end
    end.

(** [String(v)], [None] standing for the TypeError raised when an object
    carries a (non-callable) own [toString]. *)
Fixpoint js_String (v : JsVal) : option string :=
  match v with
  | JUndefined => Some "undefined"
  | JNull => Some "null"
  | JBool b => Some (if b then "true" else "false")
  | JNum n => Some (Number_toString n)
  | JStr s => Some s
  | JArr items =>
      let elem x :=
        match x with
        | JUndefined | JNull => Some ""
        | _ => js_String x
        end in
      join "," <$> (fix go (l : list JsVal) : option (list string) :=
                      match l with
                      | [] => Some []
                      | x :: rest =>
                          match elem x, go rest with
                          | Some s, Some ss => Some (s :: ss)
                          | _, _ => None
                          end
                      end) items
  | JObj props =>
      match assoc "toString" props with
      | Some _ => None
      | None => Some "[object Object]"
      end
  | JFun name => Some ("function " +:+ name +:+ "() { [native code] }")
  | JStream _ => Some "[object Object]"
  end.

(** [s.split(sep)] for a one-character separator: never empty, the empty
    string splits into one empty piece. *)
Fixpoint split (sep : ascii) (s : string) : list string :=
  match s with
  | EmptyString => [""]
  | String c rest =>
      if Ascii.eqb c sep then "" :: split sep rest
      else match split sep rest with
           | piece :: pieces => String c piece :: pieces
           | [] => [String c ""]
           end
  end.

(** ** HTTP client boundary *)

Inductive Method := GET | POST.

Record File := {
  originalname : string;
  buffer : list Byte.byte
}.

(** One [formData.append(field, new Blob([bytes]), filename)]. *)
Record FormPart := {
  part_field : string;
  part_blob : list Byte.byte;
  part_filename : string
}.

Inductive Body :=
| NoBody
| JsonBody (v : JsVal)
| FormData (parts : list FormPart).

Inductive ResponseType := RTDefault | RTStream.

Record HttpCall := {
  call_method : Method;
  call_url : string;
  call_body : Body;
  call_headers : list (string * string);
  call_responseType : ResponseType
}.

Record AxiosResponse := {
  status : Z;
  data : JsVal
}.

(** What the client rejects with: the error's own [status] property, and the
    backend's response when there was one. *)
Record AxiosError := {
  ax_message : string;
  ax_status : option Z;
  ax_response : option AxiosResponse
}.

Inductive HttpResult :=
| Emits (r : AxiosResponse)
| Errors (e : AxiosError).

(** ** Exceptions *)

Inductive Exception :=
| UnauthorizedException (message : string)
| Error (message : string)
| TypeError
| BackendError (e : AxiosError)
| NodeError (code message : string).   (* a TypeError of Node with a [code] *)

(** [error.status]: set by [HttpException] subclasses, absent on [Error]. *)
Definition error_status (e : Exception) : option Z :=
  match e with
  | UnauthorizedException _ => Some 401
  | Error _ | TypeError | NodeError _ _ => None
  | BackendError a => ax_status a
  end.

Definition error_message (e : Exception) : string :=
  match e with
  | UnauthorizedException m | Error m => m
  | TypeError => "Cannot read properties of undefined"
  | BackendError a => ax_message a
  | NodeError _ m => m
  end.

Definition is_client_error (e : Exception) : bool :=
  match error_status e with
  | Some s => (400 <=? s) && (s <? 500)
  | None => false
  end.

(** ** Response headers (Node's [OutgoingMessage])

    Header names are compared without regard to case; a name must be an HTTP
    token and a value may hold a tab and the characters U+0020 to U+007E and
    U+0080 to U+00FF only. *)

Definition lower_char (c : ascii) : ascii :=
  let n := nat_of_ascii c in
  if (65 <=? n)%nat && (n <=? 90)%nat then ascii_of_nat (n + 32) else c.

Fixpoint lower (s : string) : string :=
  match s with
  | EmptyString => ""
  | String c rest => String (lower_char c) (lower rest)
  end.

Fixpoint all_chars (p : ascii -> bool) (s : string) : bool :=
  match s with
  | EmptyString => true
  | String c rest => p c && all_chars p rest
  end.

Fixpoint one_of (c : ascii) (s : string) : bool :=
  match s with
  | EmptyString => false
  | String c' rest => Ascii.eqb c c' || one_of c rest
  end.

(** [/^[\^_`a-zA-Z\-0-9!#$%&'*+.|~]+$/] *)
Definition token_char (c : ascii) : bool :=
  let n := nat_of_ascii c in
  ((48 <=? n) && (n <=? 57) || (65 <=? n) && (n <=? 90)
   || (97 <=? n) && (n <=? 122))%nat
  || one_of c "^_`-!#$%&'*+.|~".

Definition valid_token (name : string) : bool :=
  negb (String.eqb name "") && all_chars token_char name.

(** No match of [/[^\t\x20-\x7e\x80-\xff]/].  In UTF-8 the characters up
    to U+00FF are the bytes below 0x80 and the pairs led by 0xC2 or 0xC3, so
    a byte from 0xC4 on starts a character above U+00FF. *)
Definition value_char (c : ascii) : bool :=
  let n := nat_of_ascii c in
  ((n =? 9) || (32 <=? n) && (n <=? 126) || (128 <=? n) && (n <=? 195))%nat.

Definition valid_value (value : string) : bool := all_chars value_char value.

Definition same_header (a b : string) : bool := String.eqb (lower a) (lower b).

(** [headers[name.toLowerCase()] = [name, value]]: an entry of that name is
    replaced where it stands, a new one comes last. *)
Fixpoint store_header (name value : string) (hs : list (string * string))
    : list (string * string) :=
  match hs with
  | [] => [(name, value)]
  | (n, v) :: rest =>
      if same_header n name
      then (name, value) :: filter (fun h => same_header h.1 name = false) rest
      else (n, v) :: store_header name value rest
  end.


Definition quoted (s : string) : string :=
  String "034"%char s +:+ String "034"%char "".

(** ** Metrics registry ([NodejsPrometheusService]) *)

(** Counters are keyed by their label values, in [labelNames] order.  A
    histogram or summary keeps its observations; durations are the [bigint]
    nanosecond differences (the division by [1e9] is not represented). *)
Record Registry := {
  httpRequestsTotal : gmap (string * string * string) nat;
  httpRequestDuration : list (string * string * string * Z);
  httpRequestSummary : list (string * string * Z);
  apiRequestsInProgress : Z;
  authOperations : gmap (string * string) nat;
  businessMetrics : gmap (string * string) nat;
  errorRate : gmap (string * string * string) nat
}.

Definition empty_registry : Registry :=
  {| httpRequestsTotal := ∅; httpRequestDuration := []; httpRequestSummary := [];
     apiRequestsInProgress := 0; authOperations := ∅; businessMetrics := ∅;
     errorRate := ∅ |}.

Definition value `{Countable K} (c : gmap K nat) (labels : K) : nat :=
  default 0%nat (c !! labels).

(** [counter.inc(labels)] *)
Definition inc `{Countable K} (c : gmap K nat) (labels : K) : gmap K nat :=
  <[labels := S (value c labels)]> c.

(** [route || 'unknown'] *)
Definition route_label (route : string) : string :=
  if String.eqb route "" then "unknown" else route.

Definition incrementHttpRequests (method route : string) (statusCode : Z)
    (r : Registry) : Registry :=
  {| httpRequestsTotal :=
       inc (httpRequestsTotal r) (method, route_label route, pretty statusCode);
     httpRequestDuration := httpRequestDuration r;
     httpRequestSummary := httpRequestSummary r;
     apiRequestsInProgress := apiRequestsInProgress r;
     authOperations := authOperations r;
     businessMetrics := businessMetrics r;
     errorRate := errorRate r |}.

Definition recordHttpDuration (method route : string) (statusCode duration : Z)
    (r : Registry) : Registry :=
  {| httpRequestsTotal := httpRequestsTotal r;
     httpRequestDuration :=
       httpRequestDuration r ++
       [(method, route_label route, pretty statusCode, duration)];
     httpRequestSummary :=
       httpRequestSummary r ++ [(method, route_label route, duration)];
     apiRequestsInProgress := apiRequestsInProgress r;
     authOperations := authOperations r;
     businessMetrics := businessMetrics r;
     errorRate := errorRate r |}.

Definition addActiveRequests (d : Z) (r : Registry) : Registry :=
  {| httpRequestsTotal := httpRequestsTotal r;
     httpRequestDuration := httpRequestDuration r;
     httpRequestSummary := httpRequestSummary r;
     apiRequestsInProgress := apiRequestsInProgress r + d;
     authOperations := authOperations r;
     businessMetrics := businessMetrics r;
     errorRate := errorRate r |}.

Definition incrementActiveRequests : Registry -> Registry := addActiveRequests 1.
Definition decrementActiveRequests : Registry -> Registry := addActiveRequests (-1).

Definition recordAuthOperation (operation status : string) (r : Registry) : Registry :=
  {| httpRequestsTotal := httpRequestsTotal r;
     httpRequestDuration := httpRequestDuration r;
     httpRequestSummary := httpRequestSummary r;
     apiRequestsInProgress := apiRequestsInProgress r;
     authOperations := inc (authOperations r) (operation, status);
     businessMetrics := inc (businessMetrics r) (operation, "auth");
     errorRate := errorRate r |}.

Definition recordError (type method route : string) (r : Registry) : Registry :=
  {| httpRequestsTotal := httpRequestsTotal r;
     httpRequestDuration := httpRequestDuration r;
     httpRequestSummary := httpRequestSummary r;
     apiRequestsInProgress := apiRequestsInProgress r;
     authOperations := authOperations r;
     businessMetrics := businessMetrics r;
     errorRate := inc (errorRate r) (type, method, route_label route) |}.

Definition recordBusinessOperation (operation service : string) (r : Registry) : Registry :=
  {| httpRequestsTotal := httpRequestsTotal r;
     httpRequestDuration := httpRequestDuration r;
     httpRequestSummary := httpRequestSummary r;
     apiRequestsInProgress := apiRequestsInProgress r;
     authOperations := authOperations r;
     businessMetrics := inc (businessMetrics r) (operation, service);
     errorRate := errorRate r |}.

(** ** The state a request runs in *)

Record State := {
  outbound : list HttpCall;              (* calls issued through HttpService *)
  req_user : JsVal;                      (* request.user *)
  res_statusCode : Z;                    (* response.statusCode *)
  res_headers : list (string * string);  (* headers set on the client response *)
  res_written : list string;             (* chunks written to the client *)
  metrics : Registry;                    (* prom-client's shared register *)
  hr_reads : nat                         (* readings of process.hrtime taken *)
}.

Definition initial : State :=
  {| outbound := []; req_user := JUndefined; res_statusCode := 200;
     res_headers := []; res_written := [];
     metrics := empty_registry; hr_reads := 0 |}.

Definition with_outbound (f : list HttpCall -> list HttpCall) (s : State) : State :=
  {| outbound := f (outbound s); req_user := req_user s; res_statusCode := res_statusCode s;
     res_headers := res_headers s; res_written := res_written s;
     metrics := metrics s; hr_reads := hr_reads s |}.

Definition with_user (u : JsVal) (s : State) : State :=
  {| outbound := outbound s; req_user := u; res_statusCode := res_statusCode s;
     res_headers := res_headers s; res_written := res_written s;
     metrics := metrics s; hr_reads := hr_reads s |}.

Definition with_headers (f : list (string * string) -> list (string * string))
    (s : State) : State :=
  {| outbound := outbound s; req_user := req_user s; res_statusCode := res_statusCode s;
     res_headers := f (res_headers s); res_written := res_written s;
     metrics := metrics s; hr_reads := hr_reads s |}.

Definition with_written (f : list string -> list string) (s : State) : State :=
  {| outbound := outbound s; req_user := req_user s; res_statusCode := res_statusCode s;
     res_headers := res_headers s; res_written := f (res_written s);
     metrics := metrics s; hr_reads := hr_reads s |}.

Definition with_metrics (f : Registry -> Registry) (s : State) : State :=
  {| outbound := outbound s; req_user := req_user s; res_statusCode := res_statusCode s;
     res_headers := res_headers s; res_written := res_written s;
     metrics := f (metrics s); hr_reads := hr_reads s |}.

Definition with_tick (s : State) : State :=
  {| outbound := outbound s; req_user := req_user s; res_statusCode := res_statusCode s;
     res_headers := res_headers s; res_written := res_written s;
     metrics := metrics s; hr_reads := S (hr_reads s) |}.

(** ** The monad of handlers *)

Inductive Outcome (A : Type) :=
| Returned (a : A)
| Threw (e : Exception).
Arguments Returned {A} a.
Arguments Threw {A} e.

Definition M (A : Type) : Type := State -> Outcome A * State.

#[export] Instance M_ret : MRet M := fun A a s => (Returned a, s).

#[export] Instance M_bind : MBind M := fun A B k m s =>
  match m s with
  | (Returned a, s') => k a s'
  | (Threw e, s') => (Threw e, s')
  end.

Definition throw {A} (e : Exception) : M A := fun s => (Threw e, s).

(** [try { m } catch (e) { h e }], rxjs [catchError]. *)
Definition catch {A} (m : M A) (h : Exception -> M A) : M A := fun s =>
  match m s with
  | (Returned a, s') => (Returned a, s')
  | (Threw e, s') => h e s'
  end.

(** [finalize]: runs when the source completes or errors. *)
Definition finally {A} (m : M A) (f : State -> State) : M A := fun s =>
  let '(o, s') := m s in (o, f s').

Definition modify (f : State -> State) : M unit := fun s => (Returned (), f s).
Definition gets {A} (f : State -> A) : M A := fun s => (Returned (f s), s).

(** A JavaScript partial operation lifted into the monad. *)
Definition js {A} (o : option A) : M A :=
  match o with
  | Some a => mret a
  | None => throw TypeError
  end.

(** ** The gateway *)

Record Env := {
  AUTH_SERVICE_URL : option string;
  VIDEO_SERVICE_URL : option string
}.

(** [process.env.X || fallback] *)
Definition or_else (v : option string) (fallback : string) : string :=
  match v with
  | Some s => if String.eqb s "" then fallback else s
  | None => fallback
  end.

Record Request := {
  authorization : option string;   (* request.headers.authorization *)
  method : string;
  route_path : option string;      (* request.route?.path *)
  path : option string;
  url : string
}.

(** What [@UploadedFiles()] can hand to the handler: the array multer built, a
    lone file object, or nothing at all. *)
Inductive Uploaded :=
| UFiles (files : list (option File))
| UFile (file : File)
| UMissing.

Section Gateway.

Variable env : Env.
(** The injected [HttpService]: the result of subscribing to the call. *)
Variable httpService : HttpCall -> HttpResult.
(** The successive readings of [process.hrtime.bigint()]. *)
Variable hrtime : nat -> Z.

Definition subscribe (c : HttpCall) : M AxiosResponse := fun s =>
  let s' := with_outbound (fun l => l ++ [c]) s in
  match httpService c with
  | Emits r => (Returned r, s')
  | Errors e => (Threw (BackendError e), s')
  end.

Definition http_get (url : string) (headers : list (string * string))
    (rt : ResponseType) : M AxiosResponse :=
  subscribe {| call_method := GET; call_url := url; call_body := NoBody;
               call_headers := headers; call_responseType := rt |}.

Definition http_post (url : string) (body : Body)
    (headers : list (string * string)) : M AxiosResponse :=
  subscribe {| call_method := POST; call_url := url; call_body := body;
               call_headers := headers; call_responseType := RTDefault |}.

Definition auth_service : string :=
  or_else (AUTH_SERVICE_URL env) "http://localhost:3002".

Definition video_service : string :=
  or_else (VIDEO_SERVICE_URL env) "http://localhost:3000".

(** *** AuthGuard *)

Definition extractTokenFromHeader (request : Request) : option string :=
  let parts :=
    match authorization request with
    | Some h => split " "%char h
    | None => []
    end in
  let type := parts !! 0%nat in
  let token := parts !! 1%nat in
  if decide (type = Some "Bearer") then token else None.

Definition canActivate (request : Request) : M bool :=
  match extractTokenFromHeader request with
  | None | Some "" => throw (UnauthorizedException "Token not found")
  | Some token =>
      catch
        (response ← http_get (auth_service +:+ "/auth/verify")
                      [("Authorization", "Bearer " +:+ token)] RTDefault;
         modify (with_user (data response));;
         mret true)
        (fun _ => throw (UnauthorizedException "Invalid token"))
  end.

(** *** AuthController *)

Definition register (registerDto : JsVal) : M JsVal :=
  response ← http_post (auth_service +:+ "/auth/register") (JsonBody registerDto) [];
  mret (data response).

Definition login (loginDto : JsVal) : M JsVal :=
  response ← http_post (auth_service +:+ "/auth/login") (JsonBody loginDto) [];
  mret (data response).

Definition refresh (body : JsVal) : M JsVal :=
  response ← http_post (auth_service +:+ "/auth/refresh") (JsonBody body) [];
  mret (data response).

Definition getProfile : M JsVal := gets req_user.

Definition verify : M JsVal :=
  user ← gets req_user;
  mret (JObj [("valid", JBool true); ("user", user)]).

(** *** VideoController *)

(** [String(req.user.user ? req.user.user.sub : req.user.sub)], the
    expression every video handler puts in [X-User-Id]. *)
Definition userId : M string :=
  user ← gets req_user;
  nested ← js (js_get user "user");
  sub ← (if truthy nested then js (js_get nested "sub") else js (js_get user "sub"));
  js (js_String sub).

(** [Array.isArray(files) ? files : [files]] *)
Definition fileArray (files : Uploaded) : list (option File) :=
  match files with
  | UFiles l => l
  | UFile f => [Some f]
  | UMissing => [None]
  end.

(** The [forEach] that appends every truthy entry to the form. *)
Fixpoint appendFiles (entries : list (option File)) (formData : list FormPart)
    : list FormPart :=
  match entries with
  | [] => formData
  | Some file :: rest =>
      appendFiles rest
        (formData ++ [{| part_field := "videos"; part_blob := buffer file;
                         part_filename := originalname file |}])
  | None :: rest => appendFiles rest formData
  end.

Definition uploadVideo (files : Uploaded) : M JsVal :=
  let formData := [] in
  let fileArray := fileArray files in
  if (length fileArray =? 0)%nat then throw (Error "No files provided")
  else if (3 <? length fileArray)%nat then throw (Error "Maximum 3 files allowed")
  else
    let formData := appendFiles fileArray formData in
    id ← userId;
    response ← http_post (video_service +:+ "/api/v1/videos/upload")
                  (FormData formData)
                  [("Content-Type", "multipart/form-data"); ("X-User-Id", id)];
    mret (data response).

Definition uploadVideoSingle (file : File) : M JsVal :=
  let formData :=
    [{| part_field := "video"; part_blob := buffer file;
        part_filename := originalname file |}] in
  id ← userId;
  response ← http_post (video_service +:+ "/api/v1/videos/upload-single")
                (FormData formData)
                [("Content-Type", "multipart/form-data"); ("X-User-Id", id)];
  mret (data response).

Definition listVideos : M JsVal :=
  id ← userId;
  response ← http_get (video_service +:+ "/api/v1/videos") [("X-User-Id", id)] RTDefault;
  mret (data response).

(** [res.setHeader(name, value)]: refuses a name that is no token and a
    value with a character that cannot go into a header. *)
Definition setHeader (name value : string) : M unit :=
  if negb (valid_token name) then
    throw (NodeError "ERR_INVALID_HTTP_TOKEN"
             ("Header name must be a valid HTTP token [" +:+ quoted name +:+ "]"))
  else if negb (valid_value value) then
    throw (NodeError "ERR_INVALID_CHAR"
             ("Invalid character in header content [" +:+ quoted name +:+ "]"))
  else modify (with_headers (store_header name value)).

(** [stream.pipe(res)]: the chunks reach the client as they are read. *)
Definition pipe (source : JsVal) : M unit :=
  match source with
  | JStream chunks => modify (with_written (fun w => w ++ chunks))
  | _ => throw TypeError
  end.

Definition downloadVideo (filename : string) : M unit :=
  id ← userId;
  response ← http_get (video_service +:+ "/api/v1/videos/download/" +:+ filename)
                [("X-User-Id", id)] RTStream;
  (* res.set({ 'Content-Type': ..., 'Content-Disposition': ... }): express
     hands the fields to setHeader one after the other; the charset it adds to
     a Content-Type that has one registered does not apply to application/zip *)
  setHeader "Content-Type" "application/zip";;
  setHeader "Content-Disposition" ("attachment; filename=" +:+ filename);;
  pipe (data response).

Definition getProcessingStatus : M JsVal :=
  id ← userId;
  response ← http_get (video_service +:+ "/api/v1/videos/status")
                [("X-User-Id", id)] RTDefault;
  mret (data response).

Definition getQueueStats : M JsVal :=
  id ← userId;
  response ← http_get (video_service +:+ "/api/v1/videos/queue/stats")
                [("X-User-Id", id)] RTDefault;
  mret (data response).

(** *** NodejsMetricsInterceptor *)

Definition hrtime_bigint : M Z := fun s => (Returned (hrtime (hr_reads s)), with_tick s).

(** [request.route?.path || request.path || request.url] *)
Definition route_of (request : Request) : string :=
  match route_path request, path request with
  | Some p, _ => if String.eqb p "" then
                   match path request with
                   | Some q => if String.eqb q "" then url request else q
                   | None => url request
                   end
                 else p
  | None, Some q => if String.eqb q "" then url request else q
  | None, None => url request
  end.

(** [Number(error.status) || 500] *)
Definition status_of_error (e : Exception) : Z :=
  match error_status e with
  | Some s => if s =? 0 then 500 else s
  | None => 500
  end.

(** rxjs [tap({ next, error })]: observes, then passes the notification on. *)
Definition tap {A} (m : M A) (next : M unit) (error : Exception -> M unit) : M A :=
  fun s =>
    match m s with
    | (Returned a, s') =>
        match next s' with
        | (Returned _, s'') => (Returned a, s'')
        | (Threw e, s'') => (Threw e, s'')
        end
    | (Threw e, s') =>
        match error e s' with
        | (Returned _, s'') => (Threw e, s'')
        | (Threw e', s'') => (Threw e', s'')
        end
    end.

Definition intercept {A} (request : Request) (handle : M A) : M A :=
  let method := method request in
  let route := route_of request in
  startTime ← hrtime_bigint;
  modify (with_metrics incrementActiveRequests);;
  finally
    (tap handle
       (endTime ← hrtime_bigint;
        statusCode ← gets res_statusCode;
        modify (with_metrics (incrementHttpRequests method route statusCode));;
        modify (with_metrics
                  (recordHttpDuration method route statusCode (endTime - startTime))))
       (fun error =>
          endTime ← hrtime_bigint;
          let statusCode := status_of_error error in
          modify (with_metrics (incrementHttpRequests method route statusCode));;
          modify (with_metrics
                    (recordHttpDuration method route statusCode (endTime - startTime)));;
          modify (with_metrics (recordError "http_error" method route))))
    (with_metrics decrementActiveRequests).

End Gateway.

(** ** Vocabulary of the specification *)

Fixpoint has_space (s : string) : bool :=
  match s with
  | EmptyString => false
  | String c rest => Ascii.eqb c " " || has_space rest
  end.

(** An [Authorization] header that is missing, is empty, names a scheme other
    than [Bearer], or names [Bearer] with an empty token value. *)
Inductive NoBearerToken : option string -> Prop :=
| header_missing :
    NoBearerToken None
| header_empty :
    NoBearerToken (Some "")
| scheme_alone scheme :
    has_space scheme = false -> scheme ≠ "Bearer" ->
    NoBearerToken (Some scheme)
| scheme_other scheme rest :
    has_space scheme = false -> scheme ≠ "Bearer" ->
    NoBearerToken (Some (scheme +:+ " " +:+ rest))
| bearer_alone :
    NoBearerToken (Some "Bearer")
| bearer_empty :
    NoBearerToken (Some "Bearer ")
| bearer_blank rest :
    NoBearerToken (Some ("Bearer  " +:+ rest)).





(** The multipart part a file of the bulk upload travels in. *)
Definition videos_part (file : File) : FormPart :=
  {| part_field := "videos"; part_blob := buffer file;
     part_filename := originalname file |}.

(** Number of files in the body of an outbound call. *)
Definition files_sent (c : HttpCall) : nat :=
  match call_body c with
  | FormData parts => length parts
  | _ => 0%nat
  end.


Definition verify_call (env : Env) (token : string) : HttpCall :=
  {| call_method := GET;
     call_url := or_else (AUTH_SERVICE_URL env) "http://localhost:3002" +:+ "/auth/verify";
     call_body := NoBody;
     call_headers := [("Authorization", "Bearer " +:+ token)];
     call_responseType := RTDefault |}.

Definition auth_call (env : Env) (route : string) (body : JsVal) : HttpCall :=
  {| call_method := POST;
     call_url := or_else (AUTH_SERVICE_URL env) "http://localhost:3002" +:+ route;
     call_body := JsonBody body;
     call_headers := [];
     call_responseType := RTDefault |}.



(** The state after one more outbound call. *)
Definition called (c : HttpCall) (s : State) : State :=
  with_outbound (fun l => l ++ [c]) s.

(** What a handler does that posts [body] to [route] of the auth service and
    returns [response.data]: one call, then the body or the client's error. *)
Definition relays (env : Env) (httpService : HttpCall -> HttpResult)
    (route : string) (body : JsVal) (s : State) : Outcome JsVal * State :=
  match httpService (auth_call env route body) with
  | Emits r => (Returned (data r), called (auth_call env route body) s)
  | Errors e => (Threw (BackendError e), called (auth_call env route body) s)
  end.

(** ** Sample data, after the fixtures of the unit tests *)

Definition sample_env : Env :=
  {| AUTH_SERVICE_URL := None; VIDEO_SERVICE_URL := None |}.

Definition custom_env : Env :=
  {| AUTH_SERVICE_URL := Some "http://custom-auth-service:3002";
     VIDEO_SERVICE_URL := Some "http://custom-video-service:3000" |}.


Definition mockUser : JsVal :=
  JObj [("sub", JStr "user-id-123"); ("username", JStr "testuser");
        ("email", JStr "test@example.com"); ("role", JStr "USER")].


Definition credentials : JsVal :=
  JObj [("username", JStr "u"); ("password", JStr "p")].

Definition tokens : JsVal :=
  JObj [("access_token", JStr "t1"); ("refresh_token", JStr "t2");
        ("user", JObj [("id", JStr "user-id"); ("username", JStr "u")])].

Definition answers (st : Z) (body : JsVal) : HttpCall -> HttpResult :=
  fun _ => Emits {| status := st; data := body |}.

Definition fails (e : AxiosError) : HttpCall -> HttpResult :=
  fun _ => Errors e.

Definition unauthorized : AxiosError :=
  {| ax_message := "Request failed with status code 401";
     ax_status := Some 401;
     ax_response :=
       Some {| status := 401;
               data := JObj [("statusCode", JNum 401);
                             ("message", JStr "Invalid credentials")] |} |}.

Definition unreachable : AxiosError :=
  {| ax_message := "connect ECONNREFUSED 127.0.0.1:3002";
     ax_status := None;
     ax_response := None |}.

Definition request_with (header : option string) : Request :=
  {| authorization := header; method := "POST"; route_path := Some "/auth/login";
     path := Some "/auth/login"; url := "/auth/login" |}.

Definition test1 : File :=
  {| originalname := "test1.mp4"; buffer := [Byte.x6d; Byte.x6f; Byte.x63; Byte.x6b] |}.

Definition test2 : File :=
  {| originalname := "test2.mp4"; buffer := [Byte.x6d; Byte.x6f; Byte.x63; Byte.x6b; Byte.x32] |}.

Definition clock (n : nat) : Z := 1000000 * Z.of_nat n.

(** ** Vocabulary of the further properties *)

(** A handler that leaves the metrics registry and the clock alone. *)
Definition keeps_metrics {A} (handle : M A) : Prop :=
  ∀ s, metrics (handle s).2 = metrics s ∧ hr_reads (handle s).2 = hr_reads s.

(** The state the interceptor hands to the handler: one reading of the clock
    taken, one more request in flight. *)
Definition in_flight (s : State) : State :=
  with_metrics incrementActiveRequests (with_tick s).

(** The labels of [http_requests_total] and of the duration histogram. *)
Definition http_labels (method route : string) (statusCode : Z)
    : string * string * string :=
  (method, route_label route, pretty statusCode).

(** The status code the interceptor files a settled handler under. *)
Definition settled_status {A} (o : Outcome A) (s : State) : Z :=
  match o with
  | Returned _ => res_statusCode s
  | Threw e => status_of_error e
  end.

Definition occurrences `{EqDecision K} (k : K) (l : list K) : nat :=
  length (filter (fun x => x = k) l).

(** [incrementHttpRequests] called once per entry, in order. *)
Definition record_requests (l : list (string * string * Z)) (r : Registry) : Registry :=
  foldl (fun r '(method, route, statusCode) =>
           incrementHttpRequests method route statusCode r) r l.

(** [recordAuthOperation] called once per entry, in order. *)
Definition record_auth_operations (l : list (string * string)) (r : Registry) : Registry :=
  foldl (fun r '(operation, status) => recordAuthOperation operation status r) r l.

(** The request with its [Authorization] header replaced. *)
Definition with_authorization (header : option string) (request : Request) : Request :=
  {| authorization := header; method := method request;
     route_path := route_path request; path := path request; url := url request |}.

Definition get_call (env : Env) (route id : string) : HttpCall :=
  {| call_method := GET;
     call_url := or_else (VIDEO_SERVICE_URL env) "http://localhost:3000" +:+ route;
     call_body := NoBody;
     call_headers := [("X-User-Id", id)];
     call_responseType := RTDefault |}.


(** One outbound call, then the body of the answer or the client's error. *)
Definition forwards (httpService : HttpCall -> HttpResult) (c : HttpCall) (s : State)
    : Outcome JsVal * State :=
  match httpService c with
  | Emits r => (Returned (data r), called c s)
  | Errors e => (Threw (BackendError e), called c s)
  end.


(** * Properties *)

(** ** Splitting the header *)

Lemma split_not_nil sep s : split sep s ≠ [].
Proof.
  destruct s as [|c rest]; simpl; [done|].
  destruct (Ascii.eqb c sep); [done|].
  by destruct (split sep rest).
Qed.

Lemma split_no_space s : has_space s = false -> split " " s = [s].
Proof.
  induction s as [|c rest IH]; simpl; [done|].
  intros [Hc Hrest]%orb_false_elim.
  rewrite Hc, (IH Hrest). done.
Qed.

Lemma split_at_space s rest :
  has_space s = false -> split " " (s +:+ " " +:+ rest) = s :: split " " rest.
Proof.
  induction s as [|c s' IH]; intros Hs.
  - done.
  - simpl in Hs. apply orb_false_elim in Hs as [Hc Hs].
    change (String c s' +:+ " " +:+ rest) with (String c (s' +:+ " " +:+ rest)).
    cbn [split]. rewrite Hc, (IH Hs). done.
Qed.

(** ** The authentication guard *)

Section Guard.

Variable env : Env.
Variable httpService : HttpCall -> HttpResult.

Lemma extract_no_token request :
  NoBearerToken (authorization request) ->
  extractTokenFromHeader request = None ∨ extractTokenFromHeader request = Some "".
Proof.
  unfold extractTokenFromHeader.
  inversion 1 as [Hh|Hh|scheme Hsp Hne Hh|scheme rest Hsp Hne Hh|Hh|Hh|rest Hh];
    try (by left); try (by right).
  - rewrite (split_no_space _ Hsp). simpl.
    left. case_decide; [congruence|done].
  - rewrite (split_at_space _ _ Hsp). simpl.
    left. case_decide; [congruence|done].
Qed.

Lemma extract_bearer request token :
  authorization request = Some ("Bearer " +:+ token) ->
  has_space token = false ->
  extractTokenFromHeader request = Some token.
Proof.
  intros Hh Hsp. unfold extractTokenFromHeader. rewrite Hh.
  change ("Bearer " +:+ token) with ("Bearer" +:+ " " +:+ token).
  rewrite split_at_space by done.
  rewrite (split_no_space _ Hsp). done.
Qed.

Lemma canActivate_verifies request token s :
  extractTokenFromHeader request = Some token -> token ≠ "" ->
  canActivate env httpService request s =
    match httpService (verify_call env token) with
    | Emits r =>
        (Returned true, with_user (data r) (called (verify_call env token) s))
    | Errors _ =>
        (Threw (UnauthorizedException "Invalid token"),
         called (verify_call env token) s)
    end.
Proof.
  intros Hx Hne. unfold canActivate. rewrite Hx.
  destruct token as [|c t]; [done|].
  unfold catch, mbind, M_bind, http_get, subscribe, auth_service, called. simpl.
  by destruct (httpService _).
Qed.

(** C1. A request whose [Authorization] header is missing, is empty, names a
    scheme other than [Bearer] or carries an empty token value is rejected
    by the guard with the 401 exception 'Token not found', and the state is
    left as it was: no call reaches the auth service. *)
Theorem guard_rejects_missing_token request s :
  NoBearerToken (authorization request) ->
  canActivate env httpService request s =
    (Threw (UnauthorizedException "Token not found"), s)
  ∧ error_status (UnauthorizedException "Token not found") = Some 401
  ∧ outbound (canActivate env httpService request s).2 = outbound s.
Proof.
  intros Hno.
  assert (canActivate env httpService request s =
            (Threw (UnauthorizedException "Token not found"), s)) as ->.
  { unfold canActivate.
    by destruct (extract_no_token _ Hno) as [-> | ->]. }
  done.
Qed.

(** C2. For a request carrying [Bearer <token>] the guard issues exactly one
    call: a GET, without body, of [<base>/auth/verify] with the one header
    [Authorization: Bearer <token>], where [<base>] is the value of
    [AUTH_SERVICE_URL] when that is set and not empty and
    [http://localhost:3002] otherwise; when the call answers, the body of the
    answer becomes [request.user] and the guard lets the request through. *)
Theorem guard_verifies_bearer_token request token s :
  authorization request = Some ("Bearer " +:+ token) ->
  token ≠ "" -> has_space token = false ->
  outbound (canActivate env httpService request s).2
    = outbound s ++ [verify_call env token]
  ∧ call_method (verify_call env token) = GET
  ∧ call_body (verify_call env token) = NoBody
  ∧ call_headers (verify_call env token) = [("Authorization", "Bearer " +:+ token)]
  ∧ (∀ base, AUTH_SERVICE_URL env = Some base -> base ≠ "" ->
       call_url (verify_call env token) = base +:+ "/auth/verify")
  ∧ (AUTH_SERVICE_URL env = None ∨ AUTH_SERVICE_URL env = Some "" ->
     call_url (verify_call env token) = "http://localhost:3002/auth/verify")
  ∧ (∀ r, httpService (verify_call env token) = Emits r ->
       ∃ s', canActivate env httpService request s = (Returned true, s')
             ∧ req_user s' = data r
             ∧ outbound s' = outbound s ++ [verify_call env token]).
Proof.
  intros Hh Hne Hsp.
  rewrite (canActivate_verifies _ token) by eauto using extract_bearer.
  split_and!; try done.
  - by destruct (httpService _).
  - intros base Hset Hbase. unfold verify_call, or_else. cbn [call_url].
    rewrite Hset. by destruct (String.eqb_spec base "").
  - intros [Hunset | Hunset]; unfold verify_call; cbn [call_url]; by rewrite Hunset.
  - intros r ->. eauto.
Qed.

End Guard.

(** C3. Whatever makes the verification call fail, the guard fails the
    request with the same 401 exception 'Invalid token': two runs that differ
    only in the failure of the auth service end in the same outcome and state,
    so nothing of the backend's error reaches the client. *)
Theorem guard_hides_backend_failure env service1 service2 request token s e1 e2 :
  authorization request = Some ("Bearer " +:+ token) ->
  token ≠ "" -> has_space token = false ->
  service1 (verify_call env token) = Errors e1 ->
  service2 (verify_call env token) = Errors e2 ->
  canActivate env service1 request s =
    (Threw (UnauthorizedException "Invalid token"), called (verify_call env token) s)
  ∧ canActivate env service2 request s = canActivate env service1 request s
  ∧ error_status (UnauthorizedException "Invalid token") = Some 401
  ∧ error_message (UnauthorizedException "Invalid token") = "Invalid token".
Proof.
  intros Hh Hne Hsp H1 H2.
  rewrite !(canActivate_verifies _ _ _ token) by eauto using extract_bearer.
  by rewrite H1, H2.
Qed.

(** ** The video handlers *)



(** [X-User-Id] is computed without touching the state, and the only way it
    fails is a TypeError. *)
Lemma userId_pure s :
  (∃ id, userId s = (Returned id, s)) ∨ userId s = (Threw TypeError, s).
Proof.
  unfold userId, gets, mbind, M_bind, js.
  destruct (js_get (req_user s) "user") as [nested|]; simpl; [|by right].
  destruct (truthy nested).
  - destruct (js_get nested "sub") as [sub|]; simpl; [|by right].
    destruct (js_String sub); simpl; eauto.
  - destruct (js_get (req_user s) "sub") as [sub|]; simpl; [|by right].
    destruct (js_String sub); simpl; eauto.
Qed.


Section Video.

Variable env : Env.
Variable httpService : HttpCall -> HttpResult.



(** C10. When the array handed to the handler holds at most three entries,
    the handler never fails with 'Maximum 3 files allowed'. *)
Theorem uploadVideo_cap_unreachable entries s :
  (length entries ≤ 3)%nat ->
  (uploadVideo env httpService (UFiles entries) s).1
    ≠ Threw (Error "Maximum 3 files allowed").
Proof.
  intros Hlen. unfold uploadVideo. simpl.
  destruct (length entries =? 0)%nat; [done|].
  destruct (Nat.ltb_spec 3 (length entries)); [lia|].
  unfold mbind at 1. unfold M_bind.
  destruct (userId_pure s) as [[id ->] | ->]; [|done].
  unfold mbind, M_bind, http_post, subscribe.
  by destruct (httpService _).
Qed.

(** C4 (evaluation). With an empty array, and with four entries or more,
    the handler fails before any outbound call, with the messages 'No files
    provided' and 'Maximum 3 files allowed'; the value thrown is a plain
    [Error], which carries no HTTP status: it is not a client error, and
    the metrics interceptor files it under 500. *)
Theorem uploadVideo_count_errors_have_no_status f1 f2 f3 f4 more s :
  uploadVideo env httpService (UFiles []) s
    = (Threw (Error "No files provided"), s)
  ∧ uploadVideo env httpService (UFiles (f1 :: f2 :: f3 :: f4 :: more)) s
    = (Threw (Error "Maximum 3 files allowed"), s)
  ∧ is_client_error (Error "No files provided") = false
  ∧ is_client_error (Error "Maximum 3 files allowed") = false
  ∧ status_of_error (Error "No files provided") = 500
  ∧ status_of_error (Error "Maximum 3 files allowed") = 500.
Proof. done. Qed.

(** C6 (evaluation). When no files value reaches the handler, the lone
    [undefined] is wrapped into a one-entry array, passes both count checks
    and is skipped by the loop: the outbound call is made with no file in
    its body. *)
Theorem uploadVideo_missing_files_sends_empty_form :
  let s := with_user (JObj [("sub", JStr "user-id-123")]) initial in
  ∃ c, outbound (uploadVideo env httpService UMissing s).2 = [c]
       ∧ call_body c = FormData []
       ∧ files_sent c = 0%nat.
Proof.
  eexists. unfold uploadVideo, mbind, M_bind, http_post, subscribe. simpl.
  split; [by destruct (httpService _)|done].
Qed.

Lemma same_header_refl name : same_header name name = true.
Proof. unfold same_header. apply String.eqb_refl. Qed.







End Video.

(** ** The auth passthroughs *)

Section Auth.

Variable env : Env.
Variable httpService : HttpCall -> HttpResult.

Lemma register_relays body s :
  register env httpService body s = relays env httpService "/auth/register" body s.
Proof.
  unfold register, relays, mbind, M_bind, http_post, subscribe, auth_service, called.
  simpl. by destruct (httpService _).
Qed.

Lemma login_relays body s :
  login env httpService body s = relays env httpService "/auth/login" body s.
Proof.
  unfold login, relays, mbind, M_bind, http_post, subscribe, auth_service, called.
  simpl. by destruct (httpService _).
Qed.

Lemma refresh_relays body s :
  refresh env httpService body s = relays env httpService "/auth/refresh" body s.
Proof.
  unfold refresh, relays, mbind, M_bind, http_post, subscribe, auth_service, called.
  simpl. by destruct (httpService _).
Qed.


End Auth.

(** ** Metrics *)

Lemma value_inc `{Countable K} (c : gmap K nat) labels :
  value (inc c labels) labels = S (value c labels).
Proof. unfold value at 1, inc. by rewrite lookup_insert_eq. Qed.

Lemma value_inc_other `{Countable K} (c : gmap K nat) labels labels' :
  labels ≠ labels' -> value (inc c labels) labels' = value c labels'.
Proof. intros Hne. unfold value, inc. by rewrite lookup_insert_ne. Qed.

(** The interceptor hands the handler's outcome on and never touches the
    auth-operation counter. *)
Lemma intercept_transparent {A} hrtime request (handle : M A) s :
  let s0 := with_metrics incrementActiveRequests (with_tick s) in
  (intercept hrtime request handle s).1 = (handle s0).1
  ∧ authOperations (metrics (intercept hrtime request handle s).2)
    = authOperations (metrics (handle s0).2)
  ∧ outbound (intercept hrtime request handle s).2 = outbound (handle s0).2.
Proof.
  unfold intercept, finally, tap, mbind, M_bind, hrtime_bigint, modify, gets.
  simpl. by destruct (handle _) as [[a|e] s'].
Qed.

(** C9 (as amended). The login handler returns the body the auth service
    answered with, or fails with the error of the call; neither the handler
    nor the metrics interceptor around it touches the auth-operation counter.
    Recording an auth operation, where it is done, adds exactly one to the
    counter of its (operation, status) pair and leaves the other pairs. *)
Theorem login_relays_and_records_no_auth_operation
    env httpService hrtime request loginDto s :
  login env httpService loginDto s
    = match httpService (auth_call env "/auth/login" loginDto) with
      | Emits r =>
          (Returned (data r), called (auth_call env "/auth/login" loginDto) s)
      | Errors e =>
          (Threw (BackendError e), called (auth_call env "/auth/login" loginDto) s)
      end
  ∧ authOperations (metrics (login env httpService loginDto s).2)
    = authOperations (metrics s)
  ∧ (intercept hrtime request (login env httpService loginDto) s).1
    = (login env httpService loginDto s).1
  ∧ authOperations
      (metrics (intercept hrtime request (login env httpService loginDto) s).2)
    = authOperations (metrics s)
  ∧ (∀ operation status registry,
       value (authOperations (recordAuthOperation operation status registry))
         (operation, status)
       = S (value (authOperations registry) (operation, status)))
  ∧ (∀ operation status labels registry,
       labels ≠ (operation, status) ->
       value (authOperations (recordAuthOperation operation status registry)) labels
       = value (authOperations registry) labels).
Proof.
  destruct (intercept_transparent hrtime request (login env httpService loginDto) s)
    as (Hout & Hauth & _).
  rewrite Hout, Hauth, !login_relays. unfold relays.
  split_and!; try by destruct (httpService _).
  - intros. apply value_inc.
  - intros. by apply value_inc_other.
Qed.

(** ** The case analyses are complete *)

Lemma split_cases s :
  has_space s = false
  ∨ ∃ a rest, has_space a = false ∧ s = a +:+ " " +:+ rest.
Proof.
  induction s as [|c s IH]; [by left|].
  cbn [has_space]. destruct (Ascii.eqb_spec c " ") as [->|Hc].
  - right. by exists "", s.
  - destruct IH as [Hs | (a & rest & Ha & ->)]; [by left|].
    right. exists (String c a), rest. split; [|done].
    cbn [has_space]. rewrite Ha. by destruct (Ascii.eqb_spec c " ").
Qed.

(** Every header either lacks a bearer token or is [Bearer <token>], possibly
    followed by a space and more. *)
Lemma header_cases h :
  NoBearerToken h
  ∨ ∃ token, token ≠ "" ∧ has_space token = false
      ∧ (h = Some ("Bearer " +:+ token)
         ∨ ∃ rest, h = Some ("Bearer " +:+ token +:+ " " +:+ rest)).
Proof.
  destruct h as [s|]; [|left; apply header_missing].
  destruct (split_cases s) as [Hs | (a & rest & Ha & ->)].
  - left. destruct (decide (s = "Bearer")) as [->|Hne];
      [apply bearer_alone | by apply scheme_alone].
  - destruct (decide (a = "Bearer")) as [->|Hne]; [|left; by apply scheme_other].
    destruct (split_cases rest) as [Hrest | (b & rest' & Hb & ->)].
    + destruct (decide (rest = "")) as [->|Hne]; [left; apply bearer_empty|].
      right. exists rest. eauto.
    + destruct (decide (b = "")) as [->|Hne]; [left; apply bearer_blank|].
      right. exists b. eauto.
Qed.

Lemma extract_bearer_trailing request token rest :
  authorization request = Some ("Bearer " +:+ token +:+ " " +:+ rest) ->
  has_space token = false ->
  extractTokenFromHeader request = Some token.
Proof.
  intros Hh Hsp. unfold extractTokenFromHeader. rewrite Hh.
  change ("Bearer " +:+ token +:+ " " +:+ rest)
    with ("Bearer" +:+ " " +:+ (token +:+ " " +:+ rest)).
  rewrite split_at_space by done.
  by rewrite split_at_space by done.
Qed.

(** X18. The guard answers 'Token not found' for the headers without a
    bearer token (missing, empty, another scheme, an empty token value) and
    for no others. *)
Lemma guard_token_missing_iff env httpService request s :
  (canActivate env httpService request s).1
    = Threw (UnauthorizedException "Token not found")
  ↔ NoBearerToken (authorization request).
Proof.
  split.
  - intros Hthrew.
    destruct (header_cases (authorization request))
      as [Hno | (token & Hne & Hsp & Hh)]; [done|].
    assert (extractTokenFromHeader request = Some token) as Hx.
    { destruct Hh as [Hh | [rest Hh]];
        eauto using extract_bearer, extract_bearer_trailing. }
    rewrite (canActivate_verifies _ _ _ token) in Hthrew by done.
    by destruct (httpService _).
  - intros Hno. unfold canActivate.
    by destruct (extract_no_token _ Hno) as [-> | ->].
Qed.

Lemma appendFiles_length entries formData :
  (length (appendFiles entries formData) ≤ length formData + length entries)%nat.
Proof.
  revert formData. induction entries as [|[file|] entries IH]; intros formData;
    cbn [appendFiles length]; [lia | | specialize (IH formData); lia].
  specialize (IH (formData ++ [videos_part file])).
  rewrite length_app in IH. cbn [length] in IH. unfold videos_part in *. lia.
Qed.

(** X19. Whatever reaches the bulk upload, it makes at most one outbound
    call, and a call it makes carries at most three files. *)
Lemma uploadVideo_sends_at_most_three env httpService uploaded s :
  outbound (uploadVideo env httpService uploaded s).2 = outbound s
  ∨ ∃ c, outbound (uploadVideo env httpService uploaded s).2 = outbound s ++ [c]
         ∧ (files_sent c ≤ 3)%nat.
Proof.
  unfold uploadVideo.
  destruct (length (fileArray uploaded) =? 0)%nat; [by left|].
  destruct (Nat.ltb_spec 3 (length (fileArray uploaded))); [by left|].
  unfold mbind, M_bind, http_post, subscribe.
  destruct (userId_pure s) as [[id ->] | ->]; [|by left].
  right.
  exists {| call_method := POST;
            call_url := video_service env +:+ "/api/v1/videos/upload";
            call_body := FormData (appendFiles (fileArray uploaded) []);
            call_headers := [("Content-Type", "multipart/form-data");
                             ("X-User-Id", id)];
            call_responseType := RTDefault |}.
  split.
  - by destruct (httpService _).
  - unfold files_sent. cbn [call_body].
    pose proof (appendFiles_length (fileArray uploaded) []) as Hlen.
    cbn [length] in Hlen. lia.
Qed.

(** ** The properties at the sample data *)

Example String_of_numbers :
  js_String (JNum 401) = Some "401"
  ∧ js_String (JNum (-42)) = Some "-42"
  ∧ js_String (JNum (2 ^ 60)) = Some "1152921504606847000"
  ∧ js_String (JNum (10 ^ 21)) = Some "1e+21"
  ∧ js_String (JNum (2 ^ 70)) = Some "1.1805916207174113e+21".
Proof. vm_compute. done. Qed.

Lemma guard_rejects_missing_token_witness :
  NoBearerToken (authorization (request_with (Some "Basic dXNlcjpwYXNz")))
  ∧ canActivate sample_env (answers 200 mockUser)
      (request_with (Some "Basic dXNlcjpwYXNz")) initial
    = (Threw (UnauthorizedException "Token not found"), initial).
Proof.
  assert (NoBearerToken (authorization (request_with (Some "Basic dXNlcjpwYXNz"))))
    as Hno.
  { apply (scheme_other "Basic" "dXNlcjpwYXNz"); [reflexivity | discriminate]. }
  split; [exact Hno|].
  apply (guard_rejects_missing_token sample_env (answers 200 mockUser) _ initial Hno).
Defined.

Lemma guard_verifies_bearer_token_witness :
  call_url (verify_call custom_env "valid-token")
    = "http://custom-auth-service:3002/auth/verify"
  ∧ ∃ s', canActivate custom_env (answers 200 mockUser)
            (request_with (Some "Bearer valid-token")) initial = (Returned true, s')
          ∧ req_user s' = mockUser
          ∧ outbound s' = [verify_call custom_env "valid-token"].
Proof.
  destruct (guard_verifies_bearer_token custom_env (answers 200 mockUser)
              (request_with (Some "Bearer valid-token")) "valid-token" initial)
    as (_ & _ & _ & _ & Hset & _ & Hok); [reflexivity | discriminate | reflexivity |].
  split.
  - apply (Hset "http://custom-auth-service:3002"); [reflexivity | discriminate].
  - apply (Hok {| status := 200; data := mockUser |}). reflexivity.
Defined.

Lemma guard_hides_backend_failure_witness :
  canActivate sample_env (fails unreachable)
      (request_with (Some "Bearer invalid-token")) initial
  = canActivate sample_env (fails unauthorized)
      (request_with (Some "Bearer invalid-token")) initial.
Proof.
  apply (guard_hides_backend_failure sample_env (fails unauthorized) (fails unreachable)
           (request_with (Some "Bearer invalid-token")) "invalid-token" initial
           unauthorized unreachable);
    [reflexivity | discriminate | reflexivity | reflexivity | reflexivity].
Defined.



Lemma uploadVideo_cap_unreachable_witness :
  (uploadVideo sample_env (answers 202 tokens) (UFiles [Some test1; Some test2])
     (with_user mockUser initial)).1 ≠ Threw (Error "Maximum 3 files allowed").
Proof.
  apply (uploadVideo_cap_unreachable sample_env (answers 202 tokens)
           [Some test1; Some test2] (with_user mockUser initial)).
  simpl. lia.
Defined.





Lemma login_relays_and_records_no_auth_operation_witness :
  value (authOperations
           (metrics (intercept clock (request_with None)
                       (login sample_env (answers 200 tokens) credentials) initial).2))
        ("login", "success")
  = value (authOperations (metrics initial)) ("login", "success").
Proof.
  destruct (login_relays_and_records_no_auth_operation sample_env (answers 200 tokens)
              clock (request_with None) credentials initial)
    as (_ & _ & _ & Hsame & _).
  rewrite Hsame. reflexivity.
Defined.

(** C9 (counterexample). The auth service answers the login with status 200:
    the body comes back, but the counter of (login, success) still reads what
    it read before, with or without the metrics interceptor; likewise the
    counter of (login, failure) after a 401. *)
Lemma login_counter_not_incremented :
  (login sample_env (answers 200 tokens) credentials initial).1 = Returned tokens
  ∧ value (authOperations
             (metrics (login sample_env (answers 200 tokens) credentials initial).2))
          ("login", "success")
    ≠ S (value (authOperations (metrics initial)) ("login", "success"))
  ∧ value (authOperations
             (metrics (intercept clock (request_with None)
                         (login sample_env (answers 200 tokens) credentials) initial).2))
          ("login", "success")
    ≠ S (value (authOperations (metrics initial)) ("login", "success"))
  ∧ value (authOperations
             (metrics (intercept clock (request_with None)
                         (login sample_env (fails unauthorized) credentials) initial).2))
          ("login", "failure")
    ≠ S (value (authOperations (metrics initial)) ("login", "failure")).
Proof. vm_compute. split_and!; [reflexivity | discriminate ..]. Qed.

(** * Further properties *)

(** ** Counters *)

Lemma inc_comm `{Countable K} (c : gmap K nat) a b :
  inc (inc c a) b = inc (inc c b) a.
Proof.
  destruct (decide (a = b)) as [->|Hne]; [done|].
  unfold inc, value. rewrite !lookup_insert_ne by done.
  by apply insert_insert_ne.
Qed.

Lemma occurrences_cons `{EqDecision K} (k x : K) l :
  occurrences k (x :: l)
  = ((if decide (x = k) then 1 else 0) + occurrences k l)%nat.
Proof. unfold occurrences. rewrite filter_cons. by case_decide. Qed.

Lemma value_foldl_inc `{Countable K} (l : list K) (c : gmap K nat) k :
  value (foldl inc c l) k = (value c k + occurrences k l)%nat.
Proof.
  revert c. induction l as [|x l IH]; intros c; cbn [foldl].
  - unfold occurrences. simpl. lia.
  - rewrite IH, occurrences_cons. case_decide as Hx.
    + subst. rewrite value_inc. lia.
    + rewrite value_inc_other by done. lia.
Qed.

Lemma foldl_inc_perm `{Countable K} (l l' : list K) (c : gmap K nat) :
  l ≡ₚ l' -> foldl inc c l = foldl inc c l'.
Proof.
  intros Hp. revert c. induction Hp as [|x l l' _ IH|x y l|l l' l'' _ IH1 _ IH2];
    intros c; cbn [foldl]; [done | apply IH | by rewrite inc_comm |].
  by rewrite IH1.
Qed.

Lemma record_requests_total l r :
  httpRequestsTotal (record_requests l r)
  = foldl inc (httpRequestsTotal r)
      ((fun '(method, route, statusCode) => http_labels method route statusCode) <$> l).
Proof.
  revert r. induction l as [|[[m rt] st] l IH]; intros r; [done|].
  cbn [record_requests foldl fmap list_fmap]. apply IH.
Qed.

Lemma record_requests_frame l r :
  httpRequestDuration (record_requests l r) = httpRequestDuration r
  ∧ httpRequestSummary (record_requests l r) = httpRequestSummary r
  ∧ apiRequestsInProgress (record_requests l r) = apiRequestsInProgress r
  ∧ authOperations (record_requests l r) = authOperations r
  ∧ businessMetrics (record_requests l r) = businessMetrics r
  ∧ errorRate (record_requests l r) = errorRate r.
Proof.
  revert r. induction l as [|[[m rt] st] l IH]; intros r; [done|].
  cbn [record_requests foldl]. apply (IH (incrementHttpRequests m rt st r)).
Qed.

Lemma registry_eq (r r' : Registry) :
  httpRequestsTotal r = httpRequestsTotal r' ->
  httpRequestDuration r = httpRequestDuration r' ->
  httpRequestSummary r = httpRequestSummary r' ->
  apiRequestsInProgress r = apiRequestsInProgress r' ->
  authOperations r = authOperations r' ->
  businessMetrics r = businessMetrics r' ->
  errorRate r = errorRate r' ->
  r = r'.
Proof. destruct r, r'; simpl; by intros -> -> -> -> -> -> ->. Qed.

(** X1. Recording a batch of requests adds to each [http_requests_total]
    label exactly the number of requests of the batch that carry that label
    (an empty route counting as [unknown]), and touches no other metric:
    histogram, summary, gauge, auth, business and error counters are as
    before; the registry reached does not depend on the order the requests
    were recorded in. *)
Theorem requests_are_counted l l' r labels :
  value (httpRequestsTotal (record_requests l r)) labels
  = (value (httpRequestsTotal r) labels
     + occurrences labels
         ((fun '(method, route, statusCode) => http_labels method route statusCode)
            <$> l))%nat
  ∧ httpRequestDuration (record_requests l r) = httpRequestDuration r
  ∧ httpRequestSummary (record_requests l r) = httpRequestSummary r
  ∧ apiRequestsInProgress (record_requests l r) = apiRequestsInProgress r
  ∧ authOperations (record_requests l r) = authOperations r
  ∧ businessMetrics (record_requests l r) = businessMetrics r
  ∧ errorRate (record_requests l r) = errorRate r
  ∧ (l ≡ₚ l' -> record_requests l r = record_requests l' r).
Proof.
  destruct (record_requests_frame l r) as (Hd & Hs & Ha & Hau & Hb & He).
  split_and!; try done.
  - by rewrite record_requests_total, value_foldl_inc.
  - intros Hp.
    destruct (record_requests_frame l' r) as (Hd' & Hs' & Ha' & Hau' & Hb' & He').
    apply registry_eq; try congruence.
    rewrite !record_requests_total. apply foldl_inc_perm. by rewrite Hp.
Qed.

Lemma record_auth_counters l r :
  authOperations (record_auth_operations l r) = foldl inc (authOperations r) l
  ∧ businessMetrics (record_auth_operations l r)
    = foldl inc (businessMetrics r) ((fun p => (p.1, "auth")) <$> l)
  ∧ httpRequestsTotal (record_auth_operations l r) = httpRequestsTotal r
  ∧ httpRequestDuration (record_auth_operations l r) = httpRequestDuration r
  ∧ httpRequestSummary (record_auth_operations l r) = httpRequestSummary r
  ∧ apiRequestsInProgress (record_auth_operations l r) = apiRequestsInProgress r
  ∧ errorRate (record_auth_operations l r) = errorRate r.
Proof.
  revert r. induction l as [|[op st] l IH]; intros r; [done|].
  cbn [record_auth_operations foldl fmap list_fmap].
  apply (IH (recordAuthOperation op st r)).
Qed.

(** X2. After a batch of auth operations the counter of every (operation,
    status) pair has grown by the number of operations with that pair, and
    the business counter of (operation, 'auth') by the number of operations
    with that name, whatever their status: the business counter of an
    operation is the sum of its outcomes.  The order of recording does not
    matter. *)
Theorem auth_operations_are_counted l l' r operation status :
  value (authOperations (record_auth_operations l r)) (operation, status)
  = (value (authOperations r) (operation, status)
     + occurrences (operation, status) l)%nat
  ∧ value (businessMetrics (record_auth_operations l r)) (operation, "auth")
    = (value (businessMetrics r) (operation, "auth")
       + occurrences operation (fst <$> l))%nat
  ∧ (l ≡ₚ l' -> record_auth_operations l r = record_auth_operations l' r).
Proof.
  destruct (record_auth_counters l r) as (Hau & Hb & Ht & Hd & Hs & Ha & He).
  split_and!.
  - by rewrite Hau, value_foldl_inc.
  - rewrite Hb, value_foldl_inc. f_equal.
    unfold occurrences. clear. induction l as [|[op st] l IH]; [done|].
    cbn [fmap list_fmap fst]. rewrite !filter_cons. cbn [fst].
    repeat case_decide; simplify_eq; cbn [length]; congruence.
  - intros Hp.
    destruct (record_auth_counters l' r) as (Hau' & Hb' & Ht' & Hd' & Hs' & Ha' & He').
    apply registry_eq; try congruence.
    + rewrite Hau, Hau'. by apply foldl_inc_perm.
    + rewrite Hb, Hb'. apply foldl_inc_perm. by rewrite Hp.
Qed.

(** ** The metrics interceptor *)

Lemma intercept_run {A} hrtime request (handle : M A) s :
  intercept hrtime request handle s =
    let startTime := hrtime (hr_reads s) in
    let '(o, s1) := handle (in_flight s) in
    let endTime := hrtime (hr_reads s1) in
    let code := settled_status o s1 in
    let recorded :=
      recordHttpDuration (method request) (route_of request) code (endTime - startTime)
        (incrementHttpRequests (method request) (route_of request) code (metrics s1)) in
    (o,
     with_metrics
       (fun _ =>
          decrementActiveRequests
            match o with
            | Returned _ => recorded
            | Threw _ =>
                recordError "http_error" (method request) (route_of request) recorded
            end)
       (with_tick s1)).
Proof.
  unfold intercept, finally, tap, mbind, M_bind, hrtime_bigint, modify, gets, in_flight.
  simpl. by destruct (handle _) as [[a|e] s1].
Qed.

(** X3. The interceptor is transparent: what the handler returns or throws
    is handed on as it is, and of the state the handler leaves (outbound
    calls, [request.user], the client response) nothing but the metrics and
    the clock is touched. *)
Theorem intercept_is_transparent {A} hrtime request (handle : M A) s :
  (intercept hrtime request handle s).1 = (handle (in_flight s)).1
  ∧ outbound (intercept hrtime request handle s).2 = outbound (handle (in_flight s)).2
  ∧ req_user (intercept hrtime request handle s).2 = req_user (handle (in_flight s)).2
  ∧ res_statusCode (intercept hrtime request handle s).2
    = res_statusCode (handle (in_flight s)).2
  ∧ res_headers (intercept hrtime request handle s).2
    = res_headers (handle (in_flight s)).2
  ∧ res_written (intercept hrtime request handle s).2
    = res_written (handle (in_flight s)).2.
Proof. rewrite intercept_run. by destruct (handle _) as [[a|e] s1]. Qed.

(** X4. The gauge of requests in progress is raised before the handler runs
    and lowered after it has settled: a handler that reads the gauge while it
    runs reads one more than was there before the request, and around a
    handler that leaves the registry alone the gauge is back at its old value
    afterwards, whether the handler returned or threw. *)
Theorem intercept_balances_active_requests {A} hrtime request (handle : M A) s :
  keeps_metrics handle ->
  (intercept hrtime request
     (gets (fun s => apiRequestsInProgress (metrics s))) s).1
    = Returned (apiRequestsInProgress (metrics s) + 1)
  ∧ apiRequestsInProgress (metrics (intercept hrtime request handle s).2)
    = apiRequestsInProgress (metrics s).
Proof.
  intros Hkeeps. split.
  - by rewrite intercept_run.
  - rewrite intercept_run. destruct (Hkeeps (in_flight s)) as [Hm _].
    destruct (handle _) as [[a|e] s1]; simpl in *; rewrite Hm; simpl; lia.
Qed.


(** X6. The error counter moves exactly when the handler throws: by one, under
    ('http_error', method, route), and not at all on a return.  The status the
    failure is filed under is the error's own [status] when it has a non-zero
    one and 500 otherwise, so never 0. *)
Theorem intercept_counts_errors {A} hrtime request (handle : M A) s :
  keeps_metrics handle ->
  let after := metrics (intercept hrtime request handle s).2 in
  match (handle (in_flight s)).1 with
  | Returned _ => errorRate after = errorRate (metrics s)
  | Threw e =>
      value (errorRate after) ("http_error", method request, route_label (route_of request))
      = S (value (errorRate (metrics s))
             ("http_error", method request, route_label (route_of request)))
      ∧ (∀ other,
           other ≠ ("http_error", method request, route_label (route_of request)) ->
           value (errorRate after) other = value (errorRate (metrics s)) other)
      ∧ status_of_error e ≠ 0
      ∧ (∀ code, error_status e = Some code -> code ≠ 0 -> status_of_error e = code)
      ∧ (error_status e = None -> status_of_error e = 500)
  end.
Proof.
  intros Hkeeps. cbv zeta.
  rewrite intercept_run. destruct (Hkeeps (in_flight s)) as [Hm _].
  destruct (handle _) as [[a|e] s1]; simpl in *; rewrite Hm; simpl; [done|].
  split_and!.
  - apply value_inc.
  - intros. by apply value_inc_other.
  - unfold status_of_error. destruct (error_status e) as [c|]; [|done].
    destruct (Z.eqb_spec c 0); [done|done].
  - intros code Hc Hne. unfold status_of_error. rewrite Hc.
    by destruct (Z.eqb_spec code 0).
  - intros Hc. unfold status_of_error. by rewrite Hc.
Qed.

(** X7. The route label is the matched route template when there is one,
    else the request path, else the URL, an empty string counting as absent
    at each step; the label recorded is never empty, and it is 'unknown'
    when all three are empty. *)
Theorem route_label_resolution request :
  (∀ p, route_path request = Some p -> p ≠ "" -> route_of request = p)
  ∧ (route_path request = None ∨ route_path request = Some "" ->
     ∀ q, path request = Some q -> q ≠ "" -> route_of request = q)
  ∧ (route_path request = None ∨ route_path request = Some "" ->
     path request = None ∨ path request = Some "" ->
     route_of request = url request)
  ∧ route_label (route_of request) ≠ ""
  ∧ (route_of request = "" -> route_label (route_of request) = "unknown").
Proof.
  split_and!.
  - intros p Hr Hp. unfold route_of. rewrite Hr. by destruct (String.eqb_spec p "").
  - intros [Hr | Hr] q Hq Hne; unfold route_of; rewrite Hr, Hq; simpl;
      by destruct (String.eqb_spec q "").
  - intros [Hr | Hr] [Hq | Hq]; unfold route_of; by rewrite Hr, Hq.
  - unfold route_label. by destruct (String.eqb_spec (route_of request) "").
  - by intros ->.
Qed.

(** ** More on the guard *)

Lemma split_pieces_no_space s :
  Forall (fun piece => has_space piece = false) (split " " s).
Proof.
  induction s as [|c s IH]; cbn [split]; [by repeat constructor|].
  destruct (Ascii.eqb_spec c " ") as [->|Hc]; [by constructor|].
  pose proof (split_not_nil " " s) as Hnil.
  destruct (split " " s) as [|piece pieces]; [done|].
  inversion IH as [|? ? Hpiece Hpieces]; subst.
  constructor; [|done]. cbn [has_space]. rewrite Hpiece.
  by destruct (Ascii.eqb_spec c " ").
Qed.

(** X8. A token the guard extracts never contains a space, so the header
    [Bearer <token>] the guard sends to the auth service parses back, by the
    guard's own rule, to the same token. *)
Theorem extracted_token_reparses request token :
  extractTokenFromHeader request = Some token ->
  has_space token = false
  ∧ extractTokenFromHeader (with_authorization (Some ("Bearer " +:+ token)) request)
    = Some token.
Proof.
  intros Hx.
  assert (has_space token = false) as Hsp.
  { unfold extractTokenFromHeader in Hx.
    destruct (authorization request) as [h|]; [|by case_decide].
    case_decide; [|done].
    pose proof (split_pieces_no_space h) as Hall.
    by apply (Forall_lookup_1 _ _ _ _ Hall Hx). }
  split; [done|]. by apply extract_bearer.
Qed.

(** X9. The guard has three outcomes and no other: it lets the request
    through, or it throws one of its two 401 exceptions; it never answers
    [false].  It makes at most one outbound call, the verification call;
    [request.user] is set exactly when the request is let through, to the body
    the auth service answered with; the client response and the metrics are
    never touched. *)
Theorem guard_outcomes env httpService request s :
  let run := canActivate env httpService request s in
  (run.1 = Returned true
   ∨ run.1 = Threw (UnauthorizedException "Token not found")
   ∨ run.1 = Threw (UnauthorizedException "Invalid token"))
  ∧ (run.1 = Returned true ->
     ∃ token r, extractTokenFromHeader request = Some token
       ∧ httpService (verify_call env token) = Emits r
       ∧ run.2 = with_user (data r) (called (verify_call env token) s))
  ∧ (run.1 ≠ Returned true -> req_user run.2 = req_user s)
  ∧ (outbound run.2 = outbound s
     ∨ ∃ token, outbound run.2 = outbound s ++ [verify_call env token])
  ∧ metrics run.2 = metrics s
  ∧ res_statusCode run.2 = res_statusCode s
  ∧ res_headers run.2 = res_headers s
  ∧ res_written run.2 = res_written s.
Proof.
  cbv zeta.
  destruct (extractTokenFromHeader request) as [token|] eqn:Hx.
  - destruct (decide (token = "")) as [->|Hne].
    + unfold canActivate. rewrite Hx. simpl. split_and!; eauto; done.
    + rewrite (canActivate_verifies _ _ _ token) by done.
      destruct (httpService (verify_call env token)) as [r|e] eqn:Hcall; simpl.
      * split_and!; eauto; done.
      * split_and!; eauto; done.
  - unfold canActivate. rewrite Hx. simpl. split_and!; eauto; done.
Qed.

Lemma guard_outcomes_aux env httpService request s :
  (canActivate env httpService request s).1 = Returned true ->
  ∃ token r, httpService (verify_call env token) = Emits r
    ∧ (canActivate env httpService request s).2
      = with_user (data r) (called (verify_call env token) s).
Proof.
  destruct (extractTokenFromHeader request) as [token|] eqn:Hx.
  - destruct (decide (token = "")) as [->|Hne].
    + unfold canActivate. by rewrite Hx.
    + rewrite (canActivate_verifies _ _ _ token) by done.
      destruct (httpService (verify_call env token)) as [r|e] eqn:Hcall; [|done].
      eauto.
  - unfold canActivate. by rewrite Hx.
Qed.

(** X10. Once the guard has let a request through, the profile route answers
    with the very body the auth service returned to the guard, and the verify
    route with that body under [user] beside [valid: true]; neither makes a
    call of its own nor changes the state. *)
Theorem protected_auth_routes_reuse_verification env httpService request s s' :
  canActivate env httpService request s = (Returned true, s') ->
  ∃ token r, httpService (verify_call env token) = Emits r
    ∧ getProfile s' = (Returned (data r), s')
    ∧ verify s' = (Returned (JObj [("valid", JBool true); ("user", data r)]), s')
    ∧ outbound s' = outbound s ++ [verify_call env token].
Proof.
  intros Hrun.
  destruct (guard_outcomes_aux env httpService request s) as (token & r & Hcall & Hs').
  { by rewrite Hrun. }
  rewrite Hrun in Hs'. simpl in Hs'. subst s'.
  exists token, r. by split_and!.
Qed.

(** ** More on the handlers *)

Lemma userId_then {A} (k : string -> M A) id s :
  userId s = (Returned id, s) -> (userId ≫= k) s = k id s.
Proof. intros Hid. unfold mbind, M_bind. by rewrite Hid. Qed.

Lemma userId_fails {A} (k : string -> M A) s :
  userId s = (Threw TypeError, s) -> (userId ≫= k) s = (Threw TypeError, s).
Proof. intros Hid. unfold mbind, M_bind. by rewrite Hid. Qed.

Lemma get_forwards env httpService route id s :
  (response ← http_get httpService (video_service env +:+ route)
                 [("X-User-Id", id)] RTDefault;
   mret (data response)) s
  = forwards httpService (get_call env route id) s.
Proof.
  unfold forwards, mbind, M_bind, http_get, subscribe, video_service, get_call, called.
  simpl. by destruct (httpService _).
Qed.



Lemma userId_nullish s :
  req_user s = JUndefined ∨ req_user s = JNull ->
  userId s = (Threw TypeError, s).
Proof.
  intros Hu. unfold userId, gets, mbind, M_bind.
  by destruct Hu as [-> | ->].
Qed.

(** X13. A video handler reached without a verified identity
    ([request.user] undefined or null) fails with a TypeError before any
    call is made: nothing is sent to the video service and the state is left
    as it was. *)
Theorem video_handlers_need_identity env httpService uploaded file filename s :
  req_user s = JUndefined ∨ req_user s = JNull ->
  listVideos env httpService s = (Threw TypeError, s)
  ∧ getProcessingStatus env httpService s = (Threw TypeError, s)
  ∧ getQueueStats env httpService s = (Threw TypeError, s)
  ∧ downloadVideo env httpService filename s = (Threw TypeError, s)
  ∧ uploadVideoSingle env httpService file s = (Threw TypeError, s)
  ∧ ((1 ≤ length (fileArray uploaded) ≤ 3)%nat ->
     uploadVideo env httpService uploaded s = (Threw TypeError, s)).
Proof.
  intros Hu. pose proof (userId_nullish s Hu) as Hrun.
  unfold listVideos, getProcessingStatus, getQueueStats, downloadVideo,
    uploadVideoSingle.
  rewrite !userId_fails by done. split_and!; try done.
  intros Hlen. unfold uploadVideo.
  destruct (Nat.eqb_spec (length (fileArray uploaded)) 0); [lia|].
  destruct (Nat.ltb_spec 3 (length (fileArray uploaded))); [lia|].
  by rewrite userId_fails.
Qed.


(** X15. The identity is read by truthiness: when [user] is absent or holds
    a falsy value (null, false, 0, the empty string), [X-User-Id] is the
    top-level [sub]; and when that is absent too, the header sent is the
    string 'undefined'. *)
Theorem userId_falls_back_to_flat_sub env httpService props s :
  req_user s = JObj props ->
  truthy (default JUndefined (assoc "user" props)) = false ->
  (∀ id, js_String (default JUndefined (assoc "sub" props)) = Some id ->
     userId s = (Returned id, s))
  ∧ (assoc "sub" props = None ->
     listVideos env httpService s
     = forwards httpService (get_call env "/api/v1/videos" "undefined") s).
Proof.
  intros Hu Hfalsy.
  assert (∀ id, js_String (default JUndefined (assoc "sub" props)) = Some id ->
            userId s = (Returned id, s)) as Hflat.
  { intros id Hid. unfold userId, gets, mbind, M_bind. rewrite Hu. simpl.
    rewrite Hfalsy. simpl. by rewrite Hid. }
  split; [done|].
  intros Hsub. unfold listVideos.
  rewrite (userId_then _ "undefined") by (apply Hflat; by rewrite Hsub).
  apply get_forwards.
Qed.




(** X17. When the auth service answers, register, login and refresh each
    made one POST to their path, with the request body as JSON body and no
    header of their own, and return the body of the answer; [request.user],
    the client response and the metrics are as before. *)
Theorem auth_passthroughs_return_body env httpService body s :
  let posts route (run : Outcome JsVal * State) :=
    ∀ r, httpService (auth_call env route body) = Emits r ->
      run = (Returned (data r), called (auth_call env route body) s)
      ∧ call_body (auth_call env route body) = JsonBody body
      ∧ call_headers (auth_call env route body) = []
      ∧ req_user run.2 = req_user s
      ∧ res_headers run.2 = res_headers s
      ∧ metrics run.2 = metrics s in
  posts "/auth/register" (register env httpService body s)
  ∧ posts "/auth/login" (login env httpService body s)
  ∧ posts "/auth/refresh" (refresh env httpService body s).
Proof.
  cbv zeta. rewrite register_relays, login_relays, refresh_relays. unfold relays.
  split_and!; intros r ->; done.
Qed.

Lemma login_keeps_metrics env httpService body :
  keeps_metrics (login env httpService body).
Proof.
  intros s. rewrite login_relays. unfold relays. by destruct (httpService _).
Qed.

Lemma uploadVideo_keeps_metrics env httpService uploaded :
  keeps_metrics (uploadVideo env httpService uploaded).
Proof.
  intros s. unfold uploadVideo.
  destruct (length (fileArray uploaded) =? 0)%nat; [done|].
  destruct (3 <? length (fileArray uploaded))%nat; [done|].
  destruct (userId_pure s) as [[id Hid] | Hid].
  - rewrite (userId_then _ id) by done.
    unfold mbind, M_bind, http_post, subscribe. by destruct (httpService _).
  - by rewrite userId_fails.
Qed.

(** X20. What follows the token is ignored: a header [Bearer <token>]
    followed by a space and anything else is treated exactly like
    [Bearer <token>] alone. *)
Theorem guard_ignores_trailing env httpService request token rest s :
  authorization request = Some ("Bearer " +:+ token +:+ " " +:+ rest) ->
  token ≠ "" -> has_space token = false ->
  canActivate env httpService request s
  = canActivate env httpService
      (with_authorization (Some ("Bearer " +:+ token)) request) s.
Proof.
  intros Hh Hne Hsp.
  rewrite !(canActivate_verifies _ _ _ token);
    eauto using extract_bearer, extract_bearer_trailing.
Qed.

Lemma bind_keeps_metrics {A B} (m : M A) (k : A -> M B) :
  keeps_metrics m -> (∀ a, keeps_metrics (k a)) -> keeps_metrics (m ≫= k).
Proof.
  intros Hm Hk s. unfold mbind, M_bind.
  destruct (Hm s) as [Hm1 Hm2]. destruct (m s) as [[a|e] s1]; simpl in *.
  - destruct (Hk a s1) as [Hk1 Hk2]. by rewrite Hk1, Hk2.
  - done.
Qed.

Lemma userId_keeps_metrics : keeps_metrics userId.
Proof. intros s. by destruct (userId_pure s) as [[id ->] | ->]. Qed.

Lemma subscribe_keeps_metrics httpService c : keeps_metrics (subscribe httpService c).
Proof. intros s. unfold subscribe. by destruct (httpService c). Qed.

Lemma ret_keeps_metrics {A} (a : A) : keeps_metrics (mret a).
Proof. by intros s. Qed.

(** X21. Neither the guard nor any handler of the two controllers touches
    the metrics registry or the clock: whatever they are given and however
    the backend answers, every counter, gauge and observation is afterwards
    what it was before. *)
Theorem handlers_never_touch_metrics env httpService request body uploaded file filename :
  keeps_metrics (canActivate env httpService request)
  ∧ keeps_metrics (register env httpService body)
  ∧ keeps_metrics (login env httpService body)
  ∧ keeps_metrics (refresh env httpService body)
  ∧ keeps_metrics getProfile
  ∧ keeps_metrics verify
  ∧ keeps_metrics (uploadVideo env httpService uploaded)
  ∧ keeps_metrics (uploadVideoSingle env httpService file)
  ∧ keeps_metrics (listVideos env httpService)
  ∧ keeps_metrics (downloadVideo env httpService filename)
  ∧ keeps_metrics (getProcessingStatus env httpService)
  ∧ keeps_metrics (getQueueStats env httpService).
Proof.
  assert (∀ url headers rt k,
            (∀ r : AxiosResponse, keeps_metrics (k r : M JsVal)) ->
            keeps_metrics (http_get httpService url headers rt ≫= k)) as Hget.
  { intros. apply bind_keeps_metrics; [apply subscribe_keeps_metrics|done]. }
  assert (∀ url b headers k,
            (∀ r : AxiosResponse, keeps_metrics (k r : M JsVal)) ->
            keeps_metrics (http_post httpService url b headers ≫= k)) as Hpost.
  { intros. apply bind_keeps_metrics; [apply subscribe_keeps_metrics|done]. }
  split_and!.
  - intros s. unfold canActivate.
    destruct (extractTokenFromHeader request) as [[|c t]|]; [done| |done].
    unfold catch, mbind, M_bind, http_get, subscribe, modify.
    by destruct (httpService _).
  - apply Hpost. intros; apply ret_keeps_metrics.
  - apply Hpost. intros; apply ret_keeps_metrics.
  - apply Hpost. intros; apply ret_keeps_metrics.
  - by intros s.
  - by intros s.
  - intros s. unfold uploadVideo.
    destruct (length (fileArray uploaded) =? 0)%nat; [done|].
    destruct (3 <? length (fileArray uploaded))%nat; [done|].
    revert s. apply bind_keeps_metrics; [apply userId_keeps_metrics|].
    intros id. apply Hpost. intros; apply ret_keeps_metrics.
  - apply bind_keeps_metrics; [apply userId_keeps_metrics|].
    intros id. apply Hpost. intros; apply ret_keeps_metrics.
  - apply bind_keeps_metrics; [apply userId_keeps_metrics|].
    intros id. apply Hget. intros; apply ret_keeps_metrics.
  - apply bind_keeps_metrics; [apply userId_keeps_metrics|].
    intros id. apply bind_keeps_metrics; [apply subscribe_keeps_metrics|].
    assert (∀ name value, keeps_metrics (setHeader name value)) as Hset.
    { intros name value s. unfold setHeader.
      destruct (negb (valid_token name)); [done|].
      by destruct (negb (valid_value value)). }
    intros r. apply bind_keeps_metrics; [apply Hset|].
    intros _. apply bind_keeps_metrics; [apply Hset|].
    intros _ s. unfold pipe. by destruct (data r).
  - apply bind_keeps_metrics; [apply userId_keeps_metrics|].
    intros id. apply Hget. intros; apply ret_keeps_metrics.
  - apply bind_keeps_metrics; [apply userId_keeps_metrics|].
    intros id. apply Hget. intros; apply ret_keeps_metrics.
Qed.

(** ** The further properties at the sample data *)

Lemma requests_are_counted_witness :
  value (httpRequestsTotal
           (record_requests [("GET", "", 200); ("POST", "/auth/login", 401);
                             ("GET", "unknown", 200)] empty_registry))
        ("GET", "unknown", "200") = 2%nat
  ∧ record_requests [("GET", "", 200); ("POST", "/auth/login", 401)] empty_registry
    = record_requests [("POST", "/auth/login", 401); ("GET", "", 200)] empty_registry.
Proof.
  split.
  - destruct (requests_are_counted
                [("GET", "", 200); ("POST", "/auth/login", 401); ("GET", "unknown", 200)]
                [] empty_registry ("GET", "unknown", "200")) as (Hcount & _).
    rewrite Hcount. reflexivity.
  - destruct (requests_are_counted
                [("GET", "", 200); ("POST", "/auth/login", 401)]
                [("POST", "/auth/login", 401); ("GET", "", 200)]
                empty_registry ("GET", "unknown", "200"))
      as (_ & _ & _ & _ & _ & _ & _ & Hperm).
    apply Hperm. apply perm_swap.
Defined.

Lemma auth_operations_are_counted_witness :
  value (businessMetrics
           (record_auth_operations
              [("login", "success"); ("login", "failure"); ("register", "success")]
              empty_registry))
        ("login", "auth") = 2%nat
  ∧ record_auth_operations [("login", "success"); ("login", "failure")] empty_registry
    = record_auth_operations [("login", "failure"); ("login", "success")] empty_registry.
Proof.
  split.
  - destruct (auth_operations_are_counted
                [("login", "success"); ("login", "failure"); ("register", "success")]
                [] empty_registry "login" "success") as (_ & Hbusiness & _).
    rewrite Hbusiness. reflexivity.
  - destruct (auth_operations_are_counted
                [("login", "success"); ("login", "failure")]
                [("login", "failure"); ("login", "success")]
                empty_registry "login" "success") as (_ & _ & Hperm).
    apply Hperm. apply perm_swap.
Defined.

Lemma intercept_balances_active_requests_witness :
  (intercept clock (request_with None)
     (gets (fun s => apiRequestsInProgress (metrics s))) initial).1 = Returned 1
  ∧ apiRequestsInProgress
      (metrics (intercept clock (request_with None)
                  (login sample_env (fails unauthorized) credentials) initial).2)
    = 0.
Proof.
  destruct (intercept_balances_active_requests clock (request_with None)
              (login sample_env (fails unauthorized) credentials) initial)
    as (Hduring & Hback); [apply login_keeps_metrics|].
  split; [rewrite Hduring; reflexivity | rewrite Hback; reflexivity].
Defined.


Lemma intercept_counts_errors_witness :
  value (errorRate
           (metrics (intercept clock (request_with None)
                       (uploadVideo sample_env (answers 202 tokens) (UFiles []))
                       initial).2))
        ("http_error", "POST", "/auth/login") = 1%nat
  ∧ status_of_error (Error "No files provided") = 500.
Proof.
  pose proof (intercept_counts_errors clock (request_with None)
                (uploadVideo sample_env (answers 202 tokens) (UFiles [])) initial
                (uploadVideo_keeps_metrics _ _ _)) as Hcount.
  cbv zeta in Hcount.
  change ((uploadVideo sample_env (answers 202 tokens) (UFiles []) (in_flight initial)).1)
    with (@Threw JsVal (Error "No files provided")) in Hcount.
  destruct Hcount as (Hone & _ & _ & _ & Hnone).
  split; [etrans; [exact Hone | reflexivity] | apply Hnone; reflexivity].
Defined.

Lemma route_label_resolution_witness :
  route_of {| authorization := None; method := "GET"; route_path := None;
              path := Some ""; url := "/videos?page=2" |} = "/videos?page=2".
Proof.
  destruct (route_label_resolution
              {| authorization := None; method := "GET"; route_path := None;
                 path := Some ""; url := "/videos?page=2" |})
    as (_ & _ & Hurl & _).
  apply Hurl; [left; reflexivity | right; reflexivity].
Defined.

Lemma extracted_token_reparses_witness :
  has_space "abc" = false
  ∧ extractTokenFromHeader
      (with_authorization (Some "Bearer abc") (request_with (Some "Bearer abc def")))
    = Some "abc".
Proof.
  apply (extracted_token_reparses (request_with (Some "Bearer abc def")) "abc").
  reflexivity.
Defined.

Lemma guard_outcomes_witness :
  req_user (canActivate sample_env (fails unreachable)
              (request_with (Some "Bearer valid-token")) initial).2
  = JUndefined.
Proof.
  destruct (guard_outcomes sample_env (fails unreachable)
              (request_with (Some "Bearer valid-token")) initial)
    as (_ & _ & Hkept & _).
  apply Hkept. discriminate.
Defined.

Lemma protected_auth_routes_reuse_verification_witness :
  ∃ token r, answers 200 mockUser (verify_call sample_env token) = Emits r
    ∧ getProfile (with_user mockUser (called (verify_call sample_env "valid-token") initial))
      = (Returned (data r),
         with_user mockUser (called (verify_call sample_env "valid-token") initial))
    ∧ verify (with_user mockUser (called (verify_call sample_env "valid-token") initial))
      = (Returned (JObj [("valid", JBool true); ("user", data r)]),
         with_user mockUser (called (verify_call sample_env "valid-token") initial))
    ∧ outbound (with_user mockUser (called (verify_call sample_env "valid-token") initial))
      = outbound initial ++ [verify_call sample_env token].
Proof.
  apply (protected_auth_routes_reuse_verification sample_env (answers 200 mockUser)
           (request_with (Some "Bearer valid-token")) initial).
  reflexivity.
Defined.



Lemma video_handlers_need_identity_witness :
  downloadVideo sample_env (answers 200 (JStream ["PK"])) "frames_1.zip" initial
  = (Threw TypeError, initial).
Proof.
  destruct (video_handlers_need_identity sample_env (answers 200 (JStream ["PK"]))
              (UFile test1) test1 "frames_1.zip" initial)
    as (_ & _ & _ & Hdownload & _); [left; reflexivity|].
  exact Hdownload.
Defined.


Lemma userId_falls_back_to_flat_sub_witness :
  userId (with_user (JObj [("user", JNull); ("sub", JNum 42)]) initial)
  = (Returned "42", with_user (JObj [("user", JNull); ("sub", JNum 42)]) initial).
Proof.
  destruct (userId_falls_back_to_flat_sub sample_env (answers 200 (JArr []))
              [("user", JNull); ("sub", JNum 42)]
              (with_user (JObj [("user", JNull); ("sub", JNum 42)]) initial))
    as (Hflat & _); [reflexivity | reflexivity |].
  apply Hflat. reflexivity.
Defined.


Lemma auth_passthroughs_return_body_witness :
  register sample_env (answers 201 tokens) credentials initial
  = (Returned tokens, called (auth_call sample_env "/auth/register" credentials) initial).
Proof.
  destruct (auth_passthroughs_return_body sample_env (answers 201 tokens)
              credentials initial) as (Hregister & _).
  destruct (Hregister {| status := 201; data := tokens |}) as (Hrun & _);
    [reflexivity|].
  exact Hrun.
Defined.

Lemma guard_ignores_trailing_witness :
  canActivate sample_env (answers 200 mockUser)
    (request_with (Some "Bearer valid-token trailing words")) initial
  = canActivate sample_env (answers 200 mockUser)
      (with_authorization (Some "Bearer valid-token")
         (request_with (Some "Bearer valid-token trailing words"))) initial.
Proof.
  apply (guard_ignores_trailing sample_env (answers 200 mockUser)
           (request_with (Some "Bearer valid-token trailing words"))
           "valid-token" "trailing words" initial);
    [reflexivity | discriminate | reflexivity].
Defined.

(** ** Guard and handler in sequence *)


(** X23. The guard keeps nothing between requests: the same token presented
    again is verified again, with a second call to the auth service, and the
    second answer, not the first, ends up in [request.user]. *)
Theorem guard_verifies_every_request env httpService request token s r :
  authorization request = Some ("Bearer " +:+ token) ->
  token ≠ "" -> has_space token = false ->
  httpService (verify_call env token) = Emits r ->
  ∃ s1 s2, canActivate env httpService request s = (Returned true, s1)
    ∧ canActivate env httpService request (with_user JUndefined s1)
      = (Returned true, s2)
    ∧ outbound s2 = outbound s ++ [verify_call env token; verify_call env token]
    ∧ req_user s2 = data r.
Proof.
  intros Hh Hne Hsp Hcall.
  pose proof (extract_bearer request token Hh Hsp) as Hx.
  exists (with_user (data r) (called (verify_call env token) s)).
  eexists. rewrite !(canActivate_verifies _ _ _ token) by done.
  rewrite Hcall. split_and!; try done.
  unfold called. cbn [snd outbound with_outbound with_user]. by rewrite <- app_assoc.
Qed.


Lemma guard_verifies_every_request_witness :
  ∃ s1 s2, canActivate sample_env (answers 200 mockUser)
             (request_with (Some "Bearer valid-token")) initial = (Returned true, s1)
    ∧ canActivate sample_env (answers 200 mockUser)
        (request_with (Some "Bearer valid-token")) (with_user JUndefined s1)
      = (Returned true, s2)
    ∧ outbound s2
      = outbound initial
        ++ [verify_call sample_env "valid-token"; verify_call sample_env "valid-token"]
    ∧ req_user s2 = data {| status := 200; data := mockUser |}.
Proof.
  apply (guard_verifies_every_request sample_env (answers 200 mockUser)
           (request_with (Some "Bearer valid-token")) "valid-token" initial
           {| status := 200; data := mockUser |});
    [reflexivity | discriminate | reflexivity | reflexivity].
Defined.
